(** * Checkpoint bookmarks and checkpoint summaries of deepagents

    A shallow embedding of
      - [deepagents/storage/checkpoint_utils.py]: [extract_last_messages] and
        [should_include_checkpoint], two pure functions over message dicts;
      - [deepagents/storage/bookmarks.py]: [BookmarkManager], whose four
        operations each run one SQL statement against the table
        [conversation_bookmarks].

    Conventions.
      - A Python [str] is a [string]; [len] counts its characters.  Python
        integers are [Z].
      - Values of type [Any] range over [Py.value]: [None], booleans,
        integers, strings, lists and string-keyed dicts (in insertion order,
        which [str] of a dict shows).  Floats, tuples and user classes are
        outside the embedding.
      - An exception is a result [Raise e]; a normal return is [Ok a].
      - The table is the list of its rows in heap order.  The engine is
        assumed reachable and the table provisioned by [initialize];
        [uuid4()] and [datetime.now] are inputs of [save]. *)

From Stdlib Require Import List String Ascii ZArith Bool Lia.
From Stdlib Require Import Permutation Sorted DecimalString.
From Stdlib Require DecimalNat DecimalFacts.
Import ListNotations.

Set Warnings "-register-all".

Local Open Scope string_scope.
Local Open Scope Z_scope.

(** ** Results and exceptions *)

(** Errors of the storage engine, as psycopg reports them. *)
Inductive pg_error : Type :=
| UniqueViolation (constraint : string)
| StringDataRightTruncation (width : nat).

Inductive exn : Type :=
| TypeError (msg : string)
| ValueError (msg : string)
| PgError (e : pg_error).

Inductive result (A : Type) : Type :=
| Ok (a : A)
| Raise (e : exn).

Arguments Ok {A} a.
Arguments Raise {A} e.

Definition rbind {A B : Type} (r : result A) (k : A -> result B) : result B :=
  match r with
  | Ok a => k a
  | Raise e => Raise e
  end.

Definition rmap {A B : Type} (f : A -> B) (r : result A) : result B :=
  rbind r (fun a => Ok (f a)).

Notation "x <- e ;; k" := (rbind e (fun x => k))
  (at level 61, e at next level, right associativity).

(** ** Python values and the builtins the source calls *)

Module Py.

Inductive value : Type :=
| PNone
| PBool (b : bool)
| PInt (z : Z)
| PStr (s : string)
| PList (items : list value)
| PDict (entries : list (string * value)).

Definition dict : Type := list (string * value).

(** [d.get(key)], [None] of [option] when the key is missing. *)
Fixpoint lookup (d : dict) (key : string) : option value :=
  match d with
  | [] => None
  | (k, v) :: d' => if String.eqb k key then Some v else lookup d' key
  end.

(** [d.get(key, default)]. *)
Definition get (d : dict) (key : string) (default : value) : value :=
  match lookup d key with
  | Some v => v
  | None => default
  end.

(** [v == lit] for a string literal [lit]. *)
Definition eq_str (v : value) (lit : string) : bool :=
  match v with
  | PStr s => String.eqb s lit
  | _ => false
  end.

Definition len (s : string) : Z := Z.of_nat (String.length s).

(** [s[:stop]]: a negative [stop] counts from the end, and both ends are
    clipped to the string. *)
Definition slice_to (s : string) (stop : Z) : string :=
  let n := len s in
  let stop' := if stop <? 0 then Z.max 0 (stop + n) else Z.min stop n in
  substring 0 (Z.to_nat stop') s.

Definition type_name (v : value) : string :=
  match v with
  | PNone => "NoneType"
  | PBool _ => "bool"
  | PInt _ => "int"
  | PStr _ => "str"
  | PList _ => "list"
  | PDict _ => "dict"
  end.

Definition nat_str (n : nat) : string :=
  NilZero.string_of_uint (Nat.to_uint n).

(** [sep.join(parts)]: raises [TypeError] at the first item that is not a
    [str]. *)
Fixpoint join_from (i : nat) (sep : string) (parts : list value)
  : result string :=
  match parts with
  | [] => Ok ""
  | PStr s :: rest =>
      match rest with
      | [] => Ok s
      | _ => rmap (fun t => s ++ sep ++ t) (join_from (S i) sep rest)
      end
  | v :: _ =>
      Raise (TypeError ("sequence item " ++ nat_str i
                        ++ ": expected str instance, "
                        ++ type_name v ++ " found"))
  end.

Definition join (sep : string) (parts : list value) : result string :=
  join_from 0 sep parts.

(** *** [repr] and [str] *)

Definition quote1 : ascii := ascii_of_nat 39.
Definition quote2 : ascii := ascii_of_nat 34.
Definition backslash : ascii := ascii_of_nat 92.

Fixpoint contains (c : ascii) (s : string) : bool :=
  match s with
  | EmptyString => false
  | String a s' => Ascii.eqb a c || contains c s'
  end.

Definition hex_digit (n : nat) : ascii :=
  if (n <? 10)%nat then ascii_of_nat (48 + n) else ascii_of_nat (87 + n).

Definition printable (n : nat) : bool :=
  ((32 <=? n) && (n <=? 126) || (161 <=? n) && negb (n =? 173))%nat.

Definition escape_char (quote c : ascii) : string :=
  let n := nat_of_ascii c in
  if Ascii.eqb c quote || Ascii.eqb c backslash then
    String backslash (String c "")
  else if (n =? 9)%nat then String backslash "t"
  else if (n =? 10)%nat then String backslash "n"
  else if (n =? 13)%nat then String backslash "r"
  else if printable n then String c ""
  else String backslash
         (String "x" (String (hex_digit (n / 16)) (String (hex_digit (n mod 16)) ""))).

Fixpoint escape (quote : ascii) (s : string) : string :=
  match s with
  | EmptyString => ""
  | String c s' => escape_char quote c ++ escape quote s'
  end.

Definition repr_str (s : string) : string :=
  let quote :=
    if contains quote1 s && negb (contains quote2 s) then quote2 else quote1 in
  String quote (escape quote s ++ String quote "").

Definition int_str (z : Z) : string := NilZero.string_of_int (Z.to_int z).

Fixpoint repr (v : value) : string :=
  match v with
  | PNone => "None"
  | PBool true => "True"
  | PBool false => "False"
  | PInt z => int_str z
  | PStr s => repr_str s
  | PList items =>
      "[" ++ (fix items_repr (l : list value) : string :=
                match l with
                | [] => ""
                | x :: l' =>
                    match l' with
                    | [] => repr x
                    | _ => repr x ++ ", " ++ items_repr l'
                    end
                end) items ++ "]"
  | PDict entries =>
      "{" ++ (fix entries_repr (l : list (string * value)) : string :=
                match l with
                | [] => ""
                | (k, x) :: l' =>
                    match l' with
                    | [] => repr_str k ++ ": " ++ repr x
                    | _ => repr_str k ++ ": " ++ repr x ++ ", " ++ entries_repr l'
                    end
                end) entries ++ "}"
  end.

(** [str(v)]: the string itself for a [str], its [repr] otherwise. *)
Definition str (v : value) : string :=
  match v with
  | PStr s => s
  | _ => repr v
  end.

End Py.

Import Py.

Definition is_none {A : Type} (o : option A) : bool :=
  match o with
  | None => true
  | Some _ => false
  end.

Definition is_some {A : Type} (o : option A) : bool := negb (is_none o).

(** ** checkpoint_utils.py *)

Module checkpoint_utils.

(** The inner loop over the blocks of a list content (lines 59-64):
    [text_parts] after the loop. *)
Fixpoint text_parts (content : list value) : list value :=
  match content with
  | [] => []
  | block :: rest =>
      match block with
      | PDict d =>
          if eq_str (get d "type" PNone) "text"
          then get d "text" (PStr "") :: text_parts rest
          else text_parts rest
      | PStr _ => block :: text_parts rest
      | _ => text_parts rest
      end
  end.

(** Lines 57-68: a list content is replaced by the joined text parts, a
    string is kept, anything else goes through [str]. *)
Definition content_text (content : value) : result string :=
  match content with
  | PList blocks => join " " (text_parts blocks)
  | PStr s => Ok s
  | _ => Ok (str content)
  end.

(** Lines 71-72. *)
Definition truncate (content : string) (max_length : Z) : string :=
  if len content >? max_length
  then slice_to content (max_length - 3) ++ "..."
  else content.

(** Lines 54-72: the value of [content] when the role test is reached. *)
Definition message_text (msg : dict) (max_length : Z) : result string :=
  rmap (fun content => truncate content max_length)
       (content_text (get msg "content" (PStr ""))).

(** Lines 74-77: the two slots after the role test. *)
Definition capture (msg_type : value) (content : string)
           (last_human last_ai : option string)
  : option string * option string :=
  if eq_str msg_type "human" && is_none last_human then (Some content, last_ai)
  else if eq_str msg_type "ai" && is_none last_ai then (last_human, Some content)
  else (last_human, last_ai).

(** The loop of lines 52-81 over [reversed(messages)]; returning at the
    [break] is returning [last_human, last_ai] of line 83. *)
Fixpoint scan (msgs : list dict) (max_length : Z)
         (last_human last_ai : option string)
  : result (option string * option string) :=
  match msgs with
  | [] => Ok (last_human, last_ai)
  | msg :: rest =>
      let msg_type := get msg "type" (PStr "") in
      content <- message_text msg max_length ;;
      let '(last_human, last_ai) :=
        capture msg_type content last_human last_ai in
      if is_some last_human && is_some last_ai
      then Ok (last_human, last_ai)
      else scan rest max_length last_human last_ai
  end.

Definition default_max_length : Z := 100.

Definition extract_last_messages (messages : list dict) (max_length : Z)
  : result (option string * option string) :=
  scan (rev messages) max_length None None.

Definition should_include_checkpoint (checkpoint_metadata : dict) : bool :=
  let source := get checkpoint_metadata "source" (PStr "") in
  existsb (eq_str source) ["input"; "loop"; "fork"].

End checkpoint_utils.

(** ** bookmarks.py *)

Module bookmarks.

(** The dataclass of lines 15-24.  [created_at] is a point in time, in
    microseconds: the resolution of both [datetime] and the column. *)
Record Bookmark : Type := {
  id : string;
  thread_id : string;
  checkpoint_id : string;
  name : option string;
  description : option string;
  created_at : Z
}.

(** *** The storage engine

    What the statements of this file ask of PostgreSQL, for the schema of
    [initialize] (lines 72-80).  A row carries the six columns of the table
    and is written as a [Bookmark]: lines 174-181 and 216-223 copy a row
    into one field by field. *)
Module Pg.

Definition id_width : nat := 36.
Definition thread_id_width : nat := 255.
Definition checkpoint_id_width : nat := 255.
Definition name_width : nat := 255.

Fixpoint all_spaces (s : string) : bool :=
  match s with
  | EmptyString => true
  | String c s' => Ascii.eqb c " " && all_spaces s'
  end.

(** Storing [s] in a [VARCHAR(n)] column: an over-length value is an
    error unless the excess is spaces only, which are cut off. *)
Definition varchar (n : nat) (s : string) : result string :=
  if (String.length s <=? n)%nat then Ok s
  else if all_spaces (substring n (String.length s - n) s)
       then Ok (substring 0 n s)
       else Raise (PgError (StringDataRightTruncation n)).

Definition varchar_null (n : nat) (s : option string)
  : result (option string) :=
  match s with
  | None => Ok None
  | Some s => rmap Some (varchar n s)
  end.

(** [column = %s] for a nullable column: never true of NULL. *)
Definition null_eqb (column : option string) (s : string) : bool :=
  match column with
  | Some c => String.eqb c s
  | None => false
  end.

Definition has_id (s : string) (r : Bookmark) : bool := String.eqb (id r) s.
Definition has_name (s : string) (r : Bookmark) : bool := null_eqb (name r) s.

(** [INSERT INTO conversation_bookmarks ... VALUES (...)]: the values are
    coerced to their columns, then [PRIMARY KEY (id)] and
    [CONSTRAINT unique_bookmark_name UNIQUE (name)] are enforced; the new
    row goes to the end of the heap. *)
Definition insert (heap : list Bookmark) (r : Bookmark)
  : result (list Bookmark) :=
  id' <- varchar id_width (id r) ;;
  thread_id' <- varchar thread_id_width (thread_id r) ;;
  checkpoint_id' <- varchar checkpoint_id_width (checkpoint_id r) ;;
  name' <- varchar_null name_width (name r) ;;
  if existsb (has_id id') heap then
    Raise (PgError (UniqueViolation "conversation_bookmarks_pkey"))
  else if match name' with
          | Some n => existsb (has_name n) heap
          | None => false
          end then
    Raise (PgError (UniqueViolation "unique_bookmark_name"))
  else
    Ok (heap ++ [{| id := id';
                    thread_id := thread_id';
                    checkpoint_id := checkpoint_id';
                    name := name';
                    description := description r;
                    created_at := created_at r |}])%list.

(** [WHERE name = %s OR id = %s], both parameters [identifier]. *)
Definition name_or_id (identifier : string) (r : Bookmark) : bool :=
  has_name identifier r || has_id identifier r.

(** [WHERE thread_id = %s]. *)
Definition in_thread (t : string) (r : Bookmark) : bool :=
  String.eqb (thread_id r) t.

(** [ORDER BY created_at DESC].  SQL leaves the order of rows with equal
    keys open; here they keep their heap order. *)
Fixpoint place (r : Bookmark) (sorted : list Bookmark) : list Bookmark :=
  match sorted with
  | [] => [r]
  | x :: rest =>
      if created_at x <=? created_at r then r :: x :: rest
      else x :: place r rest
  end.

Fixpoint order_by_created_at_desc (l : list Bookmark) : list Bookmark :=
  match l with
  | [] => []
  | r :: rest => place r (order_by_created_at_desc rest)
  end.

(** [SELECT ... LIMIT 1] followed by [fetchone()].  SQL leaves open which
    matching row is returned; here it is the first one of the heap. *)
Definition select_one (p : Bookmark -> bool) (heap : list Bookmark)
  : option Bookmark :=
  find p heap.

(** [DELETE FROM ... WHERE p]: the rows left, and [rowcount]. *)
Definition delete_where (p : Bookmark -> bool) (heap : list Bookmark)
  : list Bookmark * nat :=
  (filter (fun r => negb (p r)) heap, List.length (filter p heap)).

End Pg.

(** The statements a connection has been sent. *)
Inductive statement : Type :=
| INSERT
| SELECT_LIMIT_1
| SELECT_ORDER_BY
| DELETE.

Record store : Type := {
  heap : list Bookmark;
  executed : list statement
}.

(** An operation of the manager: it may raise, and it may change the store. *)
Definition M (A : Type) : Type := store -> result A * store.

Definition execute (s : statement) (st : store) : store :=
  {| heap := heap st; executed := (executed st ++ [s])%list |}.

Definition with_heap (h : list Bookmark) (st : store) : store :=
  {| heap := h; executed := executed st |}.

(** f-string formatting of a [str | None]. *)
Definition format_opt (s : option string) : string :=
  match s with
  | Some s => s
  | None => "None"
  end.

(** [if thread_id:] on a [str | None]. *)
Definition truthy (s : option string) : bool :=
  match s with
  | Some s => negb (String.eqb s "")
  | None => false
  end.

Module BookmarkManager.

Definition TABLE_NAME : string := "conversation_bookmarks".

(** Lines 112-147.  [bookmark_id] is the value of [str(uuid4())] and
    [now] the value of [datetime.now(timezone.utc)] in this call. *)
Definition save (bookmark_id : string) (now : Z)
           (thread_id checkpoint_id : string)
           (name description : option string) : M Bookmark :=
  fun st =>
    let st := execute INSERT st in
    match Pg.insert (heap st)
            {| id := bookmark_id;
               thread_id := thread_id;
               checkpoint_id := checkpoint_id;
               name := name;
               description := description;
               created_at := now |} with
    | Raise (PgError (UniqueViolation _)) =>
        (Raise (ValueError ("Bookmark with name '" ++ format_opt name
                            ++ "' already exists")), st)
    | Raise e => (Raise e, st)
    | Ok heap' =>
        (Ok {| id := bookmark_id;
               thread_id := thread_id;
               checkpoint_id := checkpoint_id;
               name := name;
               description := description;
               created_at := now |},
         with_heap heap' st)
    end.

(** Lines 159-181. *)
Definition get (identifier : string) : M (option Bookmark) :=
  fun st =>
    let st := execute SELECT_LIMIT_1 st in
    (Ok (Pg.select_one (Pg.name_or_id identifier) (heap st)), st).

(** Lines 237-248. *)
Definition delete (identifier : string) : M bool :=
  fun st =>
    let st := execute DELETE st in
    let '(heap', rowcount) :=
      Pg.delete_where (Pg.name_or_id identifier) (heap st) in
    let deleted := (0 <? rowcount)%nat in
    (Ok deleted, with_heap heap' st).

(** Lines 192-226. *)
Definition list (thread_id : option string) : M (Datatypes.list Bookmark) :=
  fun st =>
    let st := execute SELECT_ORDER_BY st in
    let rows :=
      match thread_id with
      | Some t =>
          if truthy thread_id then
            Pg.order_by_created_at_desc (filter (Pg.in_thread t) (heap st))
          else
            Pg.order_by_created_at_desc (heap st)
      | None => Pg.order_by_created_at_desc (heap st)
      end in
    (Ok rows, st).

End BookmarkManager.

(** A store that [initialize] has just provisioned. *)
Definition empty : store := {| heap := []; executed := [] |}.

End bookmarks.

Import checkpoint_utils.

(** ** The vocabulary of the specification: checkpoint summaries *)


(** The role-like field of a message record. *)
Definition has_role (role : string) (msg : dict) : bool :=
  eq_str (get msg "type" (PStr "")) role.

(** The most recent message of a role is the last one in the list. *)
Definition most_recent (role : string) (messages : list dict) : option dict :=
  find (has_role role) (rev messages).

(** What a slot of the digest reports: absent, or the text of that message. *)
Definition slot (role : string) (messages : list dict) (max_length : Z)
  : result (option string) :=
  match most_recent role messages with
  | None => Ok None
  | Some msg => rmap Some (message_text msg max_length)
  end.

(** A slot while the scan is under way: the text it holds already, or else
    that of the first message of the role among those still to scan. *)
Definition slot_from (held : option string) (role : string)
           (to_scan : list dict) (max_length : Z) : result (option string) :=
  match held with
  | Some s => Ok (Some s)
  | None =>
      match find (has_role role) to_scan with
      | None => Ok None
      | Some msg => rmap Some (message_text msg max_length)
      end
  end.


(** A block tagged [text]. *)
Definition tagged_text (block : value) : bool :=
  match block with
  | PDict d => eq_str (get d "type" PNone) "text"
  | _ => false
  end.

(** The documented shape of section 6: the [text] field of a block tagged
    [text], when present, is a string. *)
Definition block_documented (block : value) : bool :=
  match block with
  | PDict d =>
      negb (eq_str (get d "type" PNone) "text")
      || match get d "text" (PStr "") with
         | PStr _ => true
         | _ => false
         end
  | _ => true
  end.

Definition documented (msg : dict) : bool :=
  match get msg "content" (PStr "") with
  | PList blocks => forallb block_documented blocks
  | _ => true
  end.



(** What a block contributes in the code: its text when tagged [text] (empty
    when the field is missing), itself when it is a bare string. *)
Definition contribution (block : value) : list string :=
  match block with
  | PDict d =>
      if tagged_text block
      then match get d "text" (PStr "") with
           | PStr s => [s]
           | _ => []
           end
      else []
  | PStr s => [s]
  | _ => []
  end.



Import bookmarks.

(** ** The vocabulary of the specification: the bookmark store *)

(** [str(uuid4())] is a text of 36 characters. *)
Definition uuid_text (s : string) : Prop := String.length s = Pg.id_width.

Definition fits (width : nat) (s : string) : Prop :=
  (String.length s <= width)%nat.

(** Valid arguments of [save]: texts their columns can hold. *)
Definition valid (thread_id checkpoint_id : string) (name : option string)
  : Prop :=
  fits Pg.thread_id_width thread_id
  /\ fits Pg.checkpoint_id_width checkpoint_id
  /\ match name with
     | Some n => fits Pg.name_width n
     | None => True
     end.

(** Some bookmark of the store has this name. *)
Definition named (n : string) (st : store) : bool :=
  existsb (Pg.has_name n) (heap st).

(** Some bookmark of the store has this id. *)
Definition identified (s : string) (st : store) : bool :=
  existsb (Pg.has_id s) (heap st).

(** Some bookmark of the store has this name or this id. *)
Definition matched (identifier : string) (st : store) : bool :=
  existsb (Pg.name_or_id identifier) (heap st).

(** The bookmark [save] builds from its arguments and the two generated
    values. *)
Definition saved (bookmark_id : string) (now : Z)
           (thread_id checkpoint_id : string)
           (name description : option string) : Bookmark :=
  {| id := bookmark_id;
     thread_id := thread_id;
     checkpoint_id := checkpoint_id;
     name := name;
     description := description;
     created_at := now |}.





Definition succeeded {A : Type} (r : result A) : bool :=
  match r with
  | Ok _ => true
  | Raise _ => false
  end.


(** Rows in [created_at] descending order. *)
Definition newest_first (rows : list Bookmark) : Prop :=
  StronglySorted (fun a b => created_at b <= created_at a) rows.

(** Sample stores, built through [save] from an empty table. *)
Definition uuid_a : string := "123e4567-e89b-42d3-a456-426614174000".
Definition uuid_b : string := "9b2d7f10-3c4a-4e5b-8f6a-0123456789ab".
Definition uuid_c : string := "0f8fad5b-d9cb-469f-a165-70867728950e".

(** One unnamed bookmark. *)
Definition store_a : store :=
  snd (BookmarkManager.save uuid_a 10 "thread-1" "checkpoint-1" None None empty).

(** A second bookmark, named after the id of the first. *)
Definition store_ab : store :=
  snd (BookmarkManager.save uuid_b 20 "thread-2" "checkpoint-2" (Some uuid_a)
                            (Some "a name that is an id") store_a).

(** A bookmark of the thread with the empty id, then one of another thread. *)
Definition store_threads : store :=
  snd (BookmarkManager.save uuid_b 20 "thread-1" "checkpoint-2" None None
         (snd (BookmarkManager.save uuid_a 10 "" "checkpoint-1" None None empty))).


(** ** Further vocabulary: checkpoint summaries *)

(** A slot that is absent, or holds at most [max_length] characters. *)
Definition within (max_length : Z) (slot : option string) : Prop :=
  match slot with
  | Some s => len s <= max_length
  | None => True
  end.

Definition is_str (v : value) : bool :=
  match v with
  | PStr _ => true
  | _ => false
  end.

(** ** Further vocabulary: the bookmark store *)

(** One call of the manager, with the values generated in it for a save. *)
Inductive call : Type :=
| call_save (bookmark_id : string) (now : Z)
            (thread_id checkpoint_id : string)
            (name description : option string)
| call_get (identifier : string)
| call_list (thread_id : option string)
| call_delete (identifier : string).

(** The store after a call, whether the call returned or raised. *)
Definition perform (st : store) (c : call) : store :=
  match c with
  | call_save bookmark_id now thread_id checkpoint_id name description =>
      snd (BookmarkManager.save bookmark_id now thread_id checkpoint_id name
                                description st)
  | call_get identifier => snd (BookmarkManager.get identifier st)
  | call_list thread_id => snd (BookmarkManager.list thread_id st)
  | call_delete identifier => snd (BookmarkManager.delete identifier st)
  end.

(** The store after a sequence of calls on a freshly provisioned table. *)
Definition history (calls : list call) : store := fold_left perform calls empty.

(** The names in use: the non-null entries of the [name] column. *)
Definition names (rows : list Bookmark) : list string :=
  flat_map (fun r => match name r with
                     | Some n => [n]
                     | None => []
                     end) rows.

Definition row_fits (r : Bookmark) : Prop :=
  fits Pg.id_width (id r) /\ valid (thread_id r) (checkpoint_id r) (name r).

(** What the schema promises of the table. *)
Definition well_kept (rows : list Bookmark) : Prop :=
  NoDup (map id rows) /\ NoDup (names rows) /\ Forall row_fits rows.

(** ** questions.py

    The parts of the [ask_human] tool and of [QuestionsMiddleware] that
    compute on plain data.  The interrupt is the runtime's: the value it
    resumes with is an input here, and so are the tool objects, of which only
    the [name] attribute is read. *)

Module questions.





Inductive error : Type :=
| type_error
| attribute_error.

Inductive outcome : Type :=
| Returned (v : value)
| Raised (e : error).

(** [a in s] for two strings. *)
Definition is_substring (a s : string) : bool :=
  match String.index 0 a s with
  | Some _ => true
  | None => false
  end.

(** Lines 175-178: what is returned when no answer was picked. *)
Definition raw_response (response : value) : outcome :=
  match response with
  | PStr _ => Returned response
  | _ => Returned (PStr (str response))
  end.

(** Lines 165-178: what [ask_human] returns, [response] being the value of
    [interrupt(...)] and [q_id] the id of the question.  By the type of
    [answers]: [in] is a key test on a dict, a substring test on a string, a
    membership test on a list and a [TypeError] otherwise; only a dict can be
    indexed by a string, and only a dict has [values()]. *)
Definition ask_human_result (q_id : string) (response : value) : outcome :=
  match response with
  | PDict d =>
      let answers := get d "answers" (PDict []) in
      match answers with
      | PDict a =>
          match lookup a q_id with
          | Some answer => Returned answer
          | None =>
              match a with
              | (_, first) :: _ => Returned first
              | [] => raw_response response
              end
          end
      | PStr s =>
          if is_substring q_id s then Raised type_error
          else if negb (String.eqb s "") then Raised attribute_error
          else raw_response response
      | PList l =>
          if existsb (fun x => eq_str x q_id) l then Raised type_error
          else match l with
               | _ :: _ => Raised attribute_error
               | [] => raw_response response
               end
      | _ => Raised type_error
      end
  | _ => raw_response response
  end.

(** The agent state: its [tools] entry, which may be missing, and the other
    entries. *)
Record AgentState (tool : Type) : Type := {
  tools : option (list tool);
  rest : dict
}.

Arguments tools {tool} _.
Arguments rest {tool} _.

(** [{t.name for t in existing_tools if hasattr(t, "name")}], as a list. *)
Definition tool_names {tool : Type} (name_of : tool -> option string)
           (existing_tools : list tool) : list string :=
  flat_map (fun t => match name_of t with
                     | Some n => [n]
                     | None => []
                     end) existing_tools.

(** Lines 202-211.  [name_of t] is the [name] attribute of a tool that has
    one, and [ask_human_tool] the tool that [create_ask_human_tool()] makes
    in this call. *)
Definition modify_state {tool : Type} (name_of : tool -> option string)
           (ask_human_tool : tool) (state : AgentState tool)
  : AgentState tool :=
  let existing_tools :=
    match tools state with
    | Some l => l
    | None => []
    end in
  if negb (existsb (String.eqb "ask_human") (tool_names name_of existing_tools))
  then {| tools := Some (existing_tools ++ [ask_human_tool])%list;
          rest := rest state |}
  else state.

End questions.

(** * Properties *)

(** ** Strings *)

Lemma length_append (s t : string) :
  String.length (s ++ t) = (String.length s + String.length t)%nat.
Proof.
  induction s as [|c s IH]; simpl; [reflexivity|].
  now rewrite IH.
Qed.

Lemma length_prefix (s : string) :
  forall k, (k <= String.length s)%nat -> String.length (substring 0 k s) = k.
Proof.
  induction s as [|c s IH]; intros [|k] Hk; simpl in *; try reflexivity; try lia.
  rewrite IH by lia. reflexivity.
Qed.

Lemma eq_str_true (v : value) (lit : string) :
  eq_str v lit = true <-> v = PStr lit.
Proof.
  destruct v; simpl; try (split; [discriminate | intros H; discriminate H]).
  rewrite String.eqb_eq. split; [now intros ->| now intros [= ->]].
Qed.

(** ** Truncation *)

Lemma truncate_within (content : string) (max_length : Z) :
  len content <= max_length -> truncate content max_length = content.
Proof.
  intros H. unfold truncate.
  destruct (Z.gtb_spec (len content) max_length) as [Hgt|_]; [lia | reflexivity].
Qed.

Lemma truncate_beyond (content : string) (max_length : Z) :
  0 <= max_length - 3 ->
  max_length < len content ->
  truncate content max_length
  = substring 0 (Z.to_nat (max_length - 3)) content ++ "...".
Proof.
  intros H3 Hlt. unfold truncate, slice_to.
  destruct (Z.gtb_spec (len content) max_length) as [_|Hle]; [|lia].
  destruct (Z.ltb_spec (max_length - 3) 0) as [Hneg|_]; [lia|].
  rewrite Z.min_l by lia. reflexivity.
Qed.




(** ** The allow-list *)

(** C5: a checkpoint is included exactly when its [source] field is one of
    [input], [loop], [fork]; a mapping without the field, and one whose
    source is [tool], are excluded. *)
Theorem should_include_checkpoint_allow_list (metadata : dict) :
  (should_include_checkpoint metadata = true
   <-> lookup metadata "source" = Some (PStr "input")
       \/ lookup metadata "source" = Some (PStr "loop")
       \/ lookup metadata "source" = Some (PStr "fork"))
  /\ should_include_checkpoint [] = false
  /\ should_include_checkpoint [("source", PStr "tool")] = false.
Proof.
  split; [|split; reflexivity].
  unfold should_include_checkpoint, get. simpl existsb.
  rewrite !orb_true_iff, !eq_str_true.
  destruct (lookup metadata "source") as [v|].
  - split.
    + intros [H|[H|[H|H]]]; subst; auto; discriminate.
    + intros [[= ->]|[[= ->]|[= ->]]]; auto.
  - split.
    + intros [H|[H|[H|H]]]; discriminate.
    + intros [H|[H|H]]; discriminate.
Qed.

(** ** The text of a content *)

Lemma join_from_strings (sep : string) (parts : list string) :
  forall i, join_from i sep (map PStr parts) = Ok (String.concat sep parts).
Proof.
  induction parts as [|s parts IH]; intros i; [reflexivity|].
  destruct parts as [|t parts]; [reflexivity|].
  change (join_from i sep (map PStr (s :: t :: parts)))
    with (rmap (fun r => s ++ sep ++ r)
               (join_from (S i) sep (map PStr (t :: parts)))).
  rewrite IH. reflexivity.
Qed.



Lemma text_parts_documented (blocks : list value) :
  forallb block_documented blocks = true ->
  text_parts blocks = map PStr (flat_map contribution blocks).
Proof.
  induction blocks as [|block blocks IH]; [reflexivity|].
  simpl forallb. rewrite andb_true_iff. intros [Hb Hrest].
  simpl. rewrite map_app, <- (IH Hrest).
  destruct block as [| | | |items|d]; try reflexivity.
  simpl in *.
  destruct (eq_str (get d "type" PNone) "text"); [|reflexivity].
  simpl in Hb. destruct (get d "text" (PStr "")); try discriminate.
  reflexivity.
Qed.




(** ** The scan for the last messages *)

Lemma has_role_exclusive (msg : dict) :
  has_role "human" msg = true -> has_role "ai" msg = false.
Proof.
  unfold has_role. rewrite eq_str_true. intros ->. reflexivity.
Qed.

Lemma join_from_documented (blocks : list value) :
  forallb block_documented blocks = true ->
  exists s, join " " (text_parts blocks) = Ok s.
Proof.
  intros Hdoc. rewrite (text_parts_documented blocks Hdoc).
  eexists. apply join_from_strings.
Qed.

Lemma documented_message_text (msg : dict) (max_length : Z) :
  documented msg = true -> exists s, message_text msg max_length = Ok s.
Proof.
  unfold documented, message_text, content_text.
  destruct (get msg "content" (PStr "")) as [| | | |blocks|d]; intros Hdoc;
    try (eexists; reflexivity).
  destruct (join_from_documented blocks Hdoc) as [s ->].
  eexists. reflexivity.
Qed.


(** The loop invariant: on documented messages the scan ends with each slot
    holding what it held, or else the text of the first message of its role
    among those scanned. *)
Lemma scan_slots (max_length : Z) (msgs : list dict) :
  Forall (fun msg => documented msg = true) msgs ->
  forall last_human last_ai,
  exists human ai,
    slot_from last_human "human" msgs max_length = Ok human
    /\ slot_from last_ai "ai" msgs max_length = Ok ai
    /\ scan msgs max_length last_human last_ai = Ok (human, ai).
Proof.
  induction 1 as [|msg msgs Hdoc _ IH]; intros last_human last_ai.
  - exists last_human, last_ai.
    destruct last_human, last_ai; repeat split; reflexivity.
  - destruct (documented_message_text msg max_length Hdoc) as [s Hs].
    cbn [scan]. rewrite Hs. cbn [rbind]. unfold capture.
    fold (has_role "human" msg). fold (has_role "ai" msg).
    unfold slot_from. cbn [find].
    destruct (has_role "human" msg) eqn:Hhuman.
    + rewrite (has_role_exclusive msg Hhuman).
      destruct last_human as [h|], last_ai as [a|]; cbn.
      * exists (Some h), (Some a). repeat split; reflexivity.
      * destruct (IH (Some h) None) as (human & ai & H1 & H2 & H3).
        exists human, ai. repeat split; assumption.
      * rewrite Hs. exists (Some s), (Some a). repeat split; reflexivity.
      * rewrite Hs.
        destruct (IH (Some s) None) as (human & ai & H1 & H2 & H3).
        cbn in H1. injection H1 as <-.
        exists (Some s), ai. repeat split; assumption.
    + destruct (has_role "ai" msg) eqn:Hai.
      * destruct last_human as [h|], last_ai as [a|]; cbn.
        -- exists (Some h), (Some a). repeat split; reflexivity.
        -- rewrite Hs. exists (Some h), (Some s). repeat split; reflexivity.
        -- destruct (IH None (Some a)) as (human & ai & H1 & H2 & H3).
           exists human, ai. repeat split; assumption.
        -- rewrite Hs.
           destruct (IH None (Some s)) as (human & ai & H1 & H2 & H3).
           cbn in H2. injection H2 as <-.
           exists human, (Some s). repeat split; assumption.
      * destruct last_human as [h|], last_ai as [a|]; cbn.
        -- exists (Some h), (Some a). repeat split; reflexivity.
        -- destruct (IH (Some h) None) as (human & ai & H1 & H2 & H3).
           exists human, ai. repeat split; assumption.
        -- destruct (IH None (Some a)) as (human & ai & H1 & H2 & H3).
           exists human, ai. repeat split; assumption.
        -- destruct (IH None None) as (human & ai & H1 & H2 & H3).
           exists human, ai. repeat split; assumption.
Qed.







(** ** The storage engine *)

Lemma varchar_fits (width : nat) (s : string) :
  fits width s -> Pg.varchar width s = Ok s.
Proof.
  unfold fits, Pg.varchar. intros H.
  destruct (Nat.leb_spec (String.length s) width); [reflexivity | lia].
Qed.

Lemma existsb_false_In {A : Type} (p : A -> bool) (l : list A) :
  existsb p l = false <-> forall x, In x l -> p x = false.
Proof.
  induction l as [|y l IH]; cbn.
  - split; [intros _ x [] | reflexivity].
  - rewrite orb_false_iff, IH. split.
    + intros [Hy Hl] x [<-|Hx]; auto.
    + intros H. split; [apply H; now left | intros x Hx; apply H; now right].
Qed.


Lemma find_app_later {A : Type} (p : A -> bool) (l later : list A) :
  existsb p l = false -> find p (l ++ later)%list = find p later.
Proof.
  induction l as [|y l IH]; cbn; [reflexivity|].
  rewrite orb_false_iff. intros [-> Hl]. exact (IH Hl).
Qed.

Lemma filter_none {A : Type} (p : A -> bool) (l : list A) :
  existsb p l = false -> filter p l = [].
Proof.
  induction l as [|y l IH]; cbn; [reflexivity|].
  rewrite orb_false_iff. intros [-> Hl]. exact (IH Hl).
Qed.

Lemma filter_out_none {A : Type} (p : A -> bool) (l : list A) :
  existsb p l = false -> filter (fun x => negb (p x)) l = l.
Proof.
  induction l as [|y l IH]; cbn; [reflexivity|].
  rewrite orb_false_iff. intros [-> Hl]. cbn. now rewrite (IH Hl).
Qed.

Lemma rowcount_positive {A : Type} (p : A -> bool) (l : list A) :
  (0 <? List.length (filter p l))%nat = existsb p l.
Proof.
  induction l as [|y l IH]; cbn; [reflexivity|].
  destruct (p y); cbn; [reflexivity | exact IH].
Qed.


(** What [INSERT] did when it returned. *)
Lemma insert_ok (rows rows' : list Bookmark) (r : Bookmark) :
  Pg.insert rows r = Ok rows' ->
  exists id' thread_id' checkpoint_id' name',
    Pg.varchar Pg.id_width (id r) = Ok id'
    /\ Pg.varchar Pg.thread_id_width (thread_id r) = Ok thread_id'
    /\ Pg.varchar Pg.checkpoint_id_width (checkpoint_id r) = Ok checkpoint_id'
    /\ Pg.varchar_null Pg.name_width (name r) = Ok name'
    /\ existsb (Pg.has_id id') rows = false
    /\ (forall n, name' = Some n -> existsb (Pg.has_name n) rows = false)
    /\ rows' = (rows ++ [{| id := id';
                            thread_id := thread_id';
                            checkpoint_id := checkpoint_id';
                            name := name';
                            description := description r;
                            created_at := created_at r |}])%list.
Proof.
  unfold Pg.insert.
  destruct (Pg.varchar Pg.id_width (id r)) as [id'|]; [|discriminate].
  destruct (Pg.varchar Pg.thread_id_width (thread_id r)) as [thread_id'|];
    [|discriminate].
  destruct (Pg.varchar Pg.checkpoint_id_width (checkpoint_id r))
    as [checkpoint_id'|]; [|discriminate].
  destruct (Pg.varchar_null Pg.name_width (name r)) as [name'|]; [|discriminate].
  cbn [rbind].
  destruct (existsb (Pg.has_id id') rows) eqn:Hid; [discriminate|].
  destruct name' as [n|].
  - destruct (existsb (Pg.has_name n) rows) eqn:Hname; [discriminate|].
    intros [= <-]. exists id', thread_id', checkpoint_id', (Some n).
    repeat (split; [reflexivity || assumption|]).
    split; [|reflexivity]. intros n' [= <-]. exact Hname.
  - intros [= <-]. exists id', thread_id', checkpoint_id', None.
    repeat (split; [reflexivity || assumption|]).
    split; [|reflexivity]. intros n' [=].
Qed.

(** [INSERT] of values that fit their columns: only the two uniqueness
    constraints can refuse it, and the row is stored as given. *)
Lemma insert_fitting (rows : list Bookmark) (r : Bookmark) :
  fits Pg.id_width (id r) ->
  valid (thread_id r) (checkpoint_id r) (name r) ->
  Pg.insert rows r
  = if existsb (Pg.has_id (id r)) rows then
      Raise (PgError (UniqueViolation "conversation_bookmarks_pkey"))
    else if match name r with
            | Some n => existsb (Pg.has_name n) rows
            | None => false
            end then
      Raise (PgError (UniqueViolation "unique_bookmark_name"))
    else Ok (rows ++ [r])%list.
Proof.
  intros Hid (Hthread & Hcheckpoint & Hname). unfold Pg.insert.
  rewrite (varchar_fits _ _ Hid), (varchar_fits _ _ Hthread),
    (varchar_fits _ _ Hcheckpoint).
  cbn [rbind].
  destruct r as [i t c [n|] d ts]; cbn in *.
  - rewrite (varchar_fits _ _ Hname). reflexivity.
  - reflexivity.
Qed.

(** ** save *)

Lemma uuid_text_fits (s : string) : uuid_text s -> fits Pg.id_width s.
Proof. unfold uuid_text, fits. lia. Qed.

(** A save that returns has stored a row. *)
Lemma save_returned (st st' : store) (bookmark_id : string) (now : Z)
      (thread_id checkpoint_id : string) (name description : option string)
      (b : Bookmark) :
  BookmarkManager.save bookmark_id now thread_id checkpoint_id name description st
  = (Ok b, st') ->
  b = saved bookmark_id now thread_id checkpoint_id name description
  /\ exists rows',
      Pg.insert (heap st)
                (saved bookmark_id now thread_id checkpoint_id name description)
      = Ok rows'
      /\ st' = with_heap rows' (execute INSERT st).
Proof.
  unfold BookmarkManager.save. cbn [execute heap]. fold (saved bookmark_id now thread_id checkpoint_id name description).
  destruct (Pg.insert (heap st) _) as [rows'|[msg|msg|[c|w]]];
    try discriminate.
  intros [= <- <-]. split; [reflexivity|].
  exists rows'. split; reflexivity.
Qed.




Lemma existsb_orb {A : Type} (p q : A -> bool) (l : list A) :
  existsb (fun x => p x || q x) l = existsb p l || existsb q l.
Proof.
  induction l as [|y l IH]; cbn; [reflexivity|].
  rewrite IH. destruct (p y), (q y), (existsb p l), (existsb q l); reflexivity.
Qed.

Lemma matched_named_or_identified (identifier : string) (st : store) :
  matched identifier st = named identifier st || identified identifier st.
Proof. apply existsb_orb. Qed.

(** A returned save of valid arguments appended the bookmark it returns, and
    its name was free. *)
Lemma save_returned_valid (st st' : store) (bookmark_id : string) (now : Z)
      (thread_id checkpoint_id : string) (name description : option string)
      (b : Bookmark) :
  uuid_text bookmark_id ->
  valid thread_id checkpoint_id name ->
  BookmarkManager.save bookmark_id now thread_id checkpoint_id name description st
  = (Ok b, st') ->
  b = saved bookmark_id now thread_id checkpoint_id name description
  /\ heap st' = (heap st ++ [b])%list
  /\ identified bookmark_id st = false
  /\ forall n, name = Some n -> named n st = false.
Proof.
  intros Hid Hvalid Hsave.
  destruct (save_returned _ _ _ _ _ _ _ _ _ Hsave) as (-> & rows' & Hins & ->).
  rewrite insert_fitting in Hins by (try apply uuid_text_fits; assumption).
  cbn [saved id bookmarks.name] in Hins. unfold identified, named.
  destruct (existsb (Pg.has_id bookmark_id) (heap st)); [discriminate|].
  destruct name as [n|].
  - destruct (existsb (Pg.has_name n) (heap st)) eqn:Hn; [discriminate|].
    injection Hins as <-.
    repeat (split; [reflexivity|]). intros n' [= <-]. exact Hn.
  - injection Hins as <-.
    repeat (split; [reflexivity|]). intros n' [=].
Qed.








(** ** get and delete *)

Lemma delete_unfolded (identifier : string) (st : store) :
  BookmarkManager.delete identifier st
  = (Ok (matched identifier st),
     with_heap
       (filter (fun r => negb (Pg.name_or_id identifier r)) (heap st))
       (execute DELETE st)).
Proof.
  unfold BookmarkManager.delete, Pg.delete_where, matched.
  cbn [execute heap]. now rewrite rowcount_positive.
Qed.



(** C10: [delete] removes every row whose name or id is the identifier and
    keeps every other row, and returns whether some row matched; [get]
    returns one matching row or none.  In [store_ab] the name of the second
    row is the id of the first: one delete by that identifier removes both
    rows and returns true, while [get] returns one of them. *)
Theorem delete_removes_every_match (st : store) (identifier : string) :
  (forall row,
      In row (heap (snd (BookmarkManager.delete identifier st)))
      <-> In row (heap st) /\ Pg.name_or_id identifier row = false)
  /\ fst (BookmarkManager.delete identifier st) = Ok (matched identifier st)
  /\ (exists found,
         fst (BookmarkManager.get identifier st) = Ok found
         /\ match found with
            | Some row =>
                In row (heap st) /\ Pg.name_or_id identifier row = true
            | None => matched identifier st = false
            end)
  /\ (List.length (heap store_ab) = 2%nat
      /\ fst (BookmarkManager.delete uuid_a store_ab) = Ok true
      /\ heap (snd (BookmarkManager.delete uuid_a store_ab)) = []
      /\ fst (BookmarkManager.get uuid_a store_ab)
         = Ok (Some (saved uuid_a 10 "thread-1" "checkpoint-1" None None))).
Proof.
  split; [|split; [|split]].
  - intros row. rewrite delete_unfolded. cbn [snd with_heap heap].
    rewrite filter_In, negb_true_iff. reflexivity.
  - now rewrite delete_unfolded.
  - unfold BookmarkManager.get, Pg.select_one, matched.
    cbn [fst execute heap].
    destruct (find (Pg.name_or_id identifier) (heap st)) as [row|] eqn:Hfind.
    + exists (Some row). split; [reflexivity|].
      exact (find_some _ _ Hfind).
    + exists None. split; [reflexivity|].
      apply existsb_false_In. intros x Hx.
      exact (List.find_none _ _ Hfind x Hx).
  - repeat split.
Qed.

(** ** list *)

Lemma place_permutation (r : Bookmark) (rows : list Bookmark) :
  Permutation (r :: rows) (Pg.place r rows).
Proof.
  induction rows as [|x rows IH]; cbn; [reflexivity|].
  destruct (created_at x <=? created_at r); [reflexivity|].
  rewrite perm_swap. now apply perm_skip.
Qed.

Lemma order_permutation (rows : list Bookmark) :
  Permutation rows (Pg.order_by_created_at_desc rows).
Proof.
  induction rows as [|r rows IH]; cbn; [reflexivity|].
  rewrite <- place_permutation. now apply perm_skip.
Qed.

Lemma place_newest_first (r : Bookmark) (rows : list Bookmark) :
  newest_first rows -> newest_first (Pg.place r rows).
Proof.
  unfold newest_first.
  induction rows as [|x rows IH]; intros Hsorted; cbn.
  - constructor; constructor.
  - apply StronglySorted_inv in Hsorted. destruct Hsorted as [Hrows Hx].
    destruct (Z.leb_spec (created_at x) (created_at r)) as [Hle|Hlt].
    + constructor; [now constructor|].
      constructor; [exact Hle|].
      eapply Forall_impl; [|exact Hx]. cbn. intros; lia.
    + constructor; [now apply IH|].
      eapply Permutation_Forall; [apply place_permutation|].
      constructor; [lia | exact Hx].
Qed.

Lemma order_newest_first (rows : list Bookmark) :
  newest_first (Pg.order_by_created_at_desc rows).
Proof.
  induction rows as [|r rows IH]; cbn.
  - constructor.
  - now apply place_newest_first.
Qed.

(** What [list] returns: newest first, the bookmarks of the thread when the
    argument is a non-empty thread id, and all bookmarks when it is [None] or
    the empty string. *)
Lemma list_filters_and_orders (st : store) (thread_id : option string) :
  exists rows,
    fst (BookmarkManager.list thread_id st) = Ok rows
    /\ newest_first rows
    /\ Permutation rows
         (match thread_id with
          | Some t =>
              if String.eqb t "" then heap st
              else filter (Pg.in_thread t) (heap st)
          | None => heap st
          end).
Proof.
  unfold BookmarkManager.list, truthy. cbn [fst execute heap].
  destruct thread_id as [t|]; [destruct (String.eqb t "")|];
    eexists; (split; [reflexivity|]);
    (split; [apply order_newest_first | symmetry; apply order_permutation]).
Qed.

(** C6 at the empty thread id: [store_threads] holds one bookmark of the
    thread with the empty id and one of [thread-1]; [list] of the empty id
    returns both, where the filter by that id keeps only the first. *)
Lemma list_of_empty_thread_id_is_unfiltered :
  fst (BookmarkManager.list (Some "") store_threads)
  = Ok [saved uuid_b 20 "thread-1" "checkpoint-2" None None;
        saved uuid_a 10 "" "checkpoint-1" None None]
  /\ filter (Pg.in_thread "") (heap store_threads)
     = [saved uuid_a 10 "" "checkpoint-1" None None]
  /\ fst (BookmarkManager.list (Some "") store_threads)
     = fst (BookmarkManager.list None store_threads).
Proof. repeat split. Qed.

(** ** The uniqueness the table enforces *)

Lemma save_keeps_ids_unique (st st' : store) (bookmark_id : string) (now : Z)
      (thread_id checkpoint_id : string) (name description : option string)
      (outcome : result Bookmark) :
  NoDup (map id (heap st)) ->
  BookmarkManager.save bookmark_id now thread_id checkpoint_id name description st
  = (outcome, st') ->
  NoDup (map id (heap st')).
Proof.
  intros Hnodup. unfold BookmarkManager.save. cbn [execute heap].
  destruct (Pg.insert (heap st) _) as [rows'|e] eqn:Hins.
  - intros [= _ <-]. cbn [with_heap heap].
    apply insert_ok in Hins.
    destruct Hins as (id' & t & c & n & _ & _ & _ & _ & Hfresh & _ & ->).
    rewrite map_app. cbn. apply NoDup_app; [exact Hnodup | repeat constructor; intros [] |].
    intros i Hin [<-|[]]. apply in_map_iff in Hin.
    destruct Hin as (row & Hrow & Hin).
    pose proof (proj1 (existsb_false_In _ _) Hfresh row Hin) as Hneq.
    unfold Pg.has_id in Hneq. rewrite Hrow, String.eqb_refl in Hneq.
    discriminate Hneq.
  - destruct e as [msg|msg|[c|w]]; intros [= _ <-]; exact Hnodup.
Qed.

(** * Further properties *)

(** ** Bounded digests *)

Lemma truncate_bounded (content : string) (max_length : Z) :
  3 <= max_length -> len (truncate content max_length) <= max_length.
Proof.
  intros H3.
  destruct (Z.le_gt_cases (len content) max_length) as [Hle|Hgt].
  - now rewrite truncate_within.
  - rewrite truncate_beyond by lia.
    unfold len in *. rewrite length_append, length_prefix by lia.
    simpl String.length. lia.
Qed.

Lemma message_text_bounded (msg : dict) (max_length : Z) (s : string) :
  3 <= max_length ->
  message_text msg max_length = Ok s ->
  len s <= max_length.
Proof.
  intros H3. unfold message_text.
  destruct (content_text _) as [c|e]; cbn; [|discriminate].
  intros [= <-]. now apply truncate_bounded.
Qed.

Lemma scan_bounded (max_length : Z) (msgs : list dict) :
  3 <= max_length ->
  forall last_human last_ai human ai,
    within max_length last_human ->
    within max_length last_ai ->
    scan msgs max_length last_human last_ai = Ok (human, ai) ->
    within max_length human /\ within max_length ai.
Proof.
  intros H3.
  induction msgs as [|msg msgs IH]; intros last_human last_ai human ai Hh Ha.
  - cbn. intros [= <- <-]. now split.
  - cbn [scan].
    destruct (message_text msg max_length) as [s|e] eqn:Hs; cbn [rbind];
      [|discriminate].
    pose proof (message_text_bounded _ _ _ H3 Hs) as Hbound.
    assert (Hcap : within max_length
                     (fst (capture (get msg "type" (PStr "")) s
                                   last_human last_ai))
                   /\ within max_length
                        (snd (capture (get msg "type" (PStr "")) s
                                      last_human last_ai))).
    { unfold capture.
      destruct (eq_str _ "human" && is_none last_human);
        [now split|].
      destruct (eq_str _ "ai" && is_none last_ai); now split. }
    destruct (capture _ s last_human last_ai) as [h a].
    destruct Hcap as [Hh' Ha'].
    destruct (is_some h && is_some a).
    + intros [= <- <-]. now split.
    + now apply IH.
Qed.

(** X1: with a limit of at least 3, whatever [extract_last_messages] returns
    holds at most [max_length] characters in each slot, on every message
    list for which it returns. *)
Theorem extract_last_messages_bounded
        (messages : list dict) (max_length : Z) (human ai : option string) :
  3 <= max_length ->
  extract_last_messages messages max_length = Ok (human, ai) ->
  within max_length human /\ within max_length ai.
Proof.
  intros H3 Hextract.
  exact (scan_bounded max_length (rev messages) H3 None None human ai I I
                      Hextract).
Qed.

Lemma extract_last_messages_bounded_witness :
  within 10 (Some "hello, ...") /\ within 10 (Some "hi").
Proof.
  apply (extract_last_messages_bounded
           [[("type", PStr "ai"); ("content", PStr "hi")];
            [("type", PStr "human"); ("content", PStr "hello, world")]]
           10).
  - lia.
  - reflexivity.
Defined.

(** X2: with a limit of at least 3, truncating twice is truncating once. *)
Theorem truncate_idempotent (content : string) (max_length : Z) :
  3 <= max_length ->
  truncate (truncate content max_length) max_length
  = truncate content max_length.
Proof.
  intros H3. apply truncate_within. now apply truncate_bounded.
Qed.

Lemma truncate_idempotent_witness :
  truncate (truncate "hello, world" 10) 10 = truncate "hello, world" 10.
Proof. apply truncate_idempotent. lia. Defined.

(** ** A text field that is not a string *)

Lemma join_from_raises (sep : string) (parts : list value) :
  forallb is_str parts = false ->
  forall i, exists text, join_from i sep parts = Raise (TypeError text).
Proof.
  induction parts as [|v parts IH]; [discriminate|].
  cbn [forallb]. intros Hbad i.
  destruct v as [| | |s| |]; try (eexists; reflexivity).
  cbn in Hbad. destruct parts as [|w parts]; [discriminate|].
  destruct (IH Hbad (S i)) as [text Htext].
  exists text.
  change (join_from i sep (PStr s :: w :: parts))
    with (rmap (fun t => s ++ sep ++ t) (join_from (S i) sep (w :: parts))).
  now rewrite Htext.
Qed.

Lemma text_parts_undocumented (blocks : list value) :
  forallb block_documented blocks = false ->
  forallb is_str (text_parts blocks) = false.
Proof.
  induction blocks as [|block blocks IH]; [discriminate|].
  cbn [forallb]. rewrite andb_false_iff.
  destruct block as [| | |s|items|d]; cbn [block_documented text_parts].
  1-3, 5: intros [Hb|Hrest]; [discriminate Hb | exact (IH Hrest)].
  - intros [Hb|Hrest]; [discriminate Hb|]. cbn. exact (IH Hrest).
  - destruct (eq_str (get d "type" PNone) "text"); cbn [negb orb].
    + destruct (get d "text" (PStr "")); cbn [forallb is_str andb];
        intros [Hb|Hrest]; try reflexivity; try discriminate Hb.
      exact (IH Hrest).
    + intros [Hb|Hrest]; [discriminate Hb | exact (IH Hrest)].
Qed.

(** X3: when the content of the most recent message is a list holding a block
    tagged [text] whose [text] is not a string, [extract_last_messages]
    raises [TypeError], whatever the role of that message and whatever the
    earlier messages are. *)
Theorem extract_last_messages_text_not_str
        (earlier : list dict) (msg : dict) (blocks : list value)
        (max_length : Z) :
  lookup msg "content" = Some (PList blocks) ->
  forallb block_documented blocks = false ->
  exists text,
    extract_last_messages (earlier ++ [msg]) max_length
    = Raise (TypeError text).
Proof.
  intros Hcontent Hbad.
  destruct (join_from_raises " " (text_parts blocks)
                             (text_parts_undocumented blocks Hbad) 0)
    as [text Htext].
  exists text. unfold extract_last_messages.
  rewrite rev_app_distr. cbn [rev app scan].
  unfold message_text, get. rewrite Hcontent.
  unfold content_text, join. rewrite Htext. reflexivity.
Qed.

Lemma extract_last_messages_text_not_str_witness :
  exists text,
    extract_last_messages
      [[("type", PStr "human"); ("content", PStr "hi")];
       [("type", PStr "tool");
        ("content", PList [PDict [("type", PStr "text"); ("text", PNone)]])]]
      100
    = Raise (TypeError text).
Proof.
  apply (extract_last_messages_text_not_str
           [[("type", PStr "human"); ("content", PStr "hi")]]
           [("type", PStr "tool");
            ("content", PList [PDict [("type", PStr "text"); ("text", PNone)]])]
           [PDict [("type", PStr "text"); ("text", PNone)]]);
    reflexivity.
Defined.

(** ** The table keeps the promises of its schema *)

Lemma varchar_stored_fits (width : nat) (s s' : string) :
  Pg.varchar width s = Ok s' -> fits width s'.
Proof.
  unfold Pg.varchar, fits.
  destruct (Nat.leb_spec (String.length s) width) as [Hle|Hgt].
  - now intros [= <-].
  - destruct (Pg.all_spaces _); [|discriminate].
    intros [= <-]. rewrite length_prefix; lia.
Qed.

Lemma names_app (rows rows' : list Bookmark) :
  names (rows ++ rows') = (names rows ++ names rows')%list.
Proof. apply flat_map_app. Qed.

Lemma named_in_names (n : string) (rows : list Bookmark) :
  In n (names rows) -> existsb (Pg.has_name n) rows = true.
Proof.
  unfold names. rewrite in_flat_map. intros (r & Hr & Hn).
  apply existsb_exists. exists r. split; [exact Hr|].
  unfold Pg.has_name. destruct (name r) as [m|]; [|destruct Hn].
  destruct Hn as [<-|[]]. cbn. apply String.eqb_refl.
Qed.

Lemma ids_distinct_after_filter (keep : Bookmark -> bool) (rows : list Bookmark) :
  NoDup (map id rows) -> NoDup (map id (filter keep rows)).
Proof.
  induction rows as [|r rows IH]; cbn [filter map]; [trivial|].
  intros Hdistinct. apply NoDup_cons_iff in Hdistinct.
  destruct Hdistinct as [Hfresh Hrest].
  destruct (keep r); cbn [map]; [|exact (IH Hrest)].
  constructor; [|exact (IH Hrest)].
  intros Hin. apply Hfresh.
  apply in_map_iff in Hin. destruct Hin as (other & Hsame & Hkept).
  apply filter_In in Hkept. apply in_map_iff.
  exists other. split; [exact Hsame | exact (proj1 Hkept)].
Qed.

Lemma names_filter_incl (p : Bookmark -> bool) (rows : list Bookmark) (n : string) :
  In n (names (filter p rows)) -> In n (names rows).
Proof.
  unfold names. rewrite !in_flat_map. intros (r & Hr & Hn).
  apply filter_In in Hr. exists r. tauto.
Qed.

Lemma NoDup_app_parts {A : Type} (l l' : list A) :
  NoDup (l ++ l') ->
  NoDup l /\ NoDup l' /\ forall a, In a l -> ~ In a l'.
Proof.
  induction l as [|x l IH]; cbn.
  - intros H. split; [constructor | split; [exact H | intros a []]].
  - intros H. apply NoDup_cons_iff in H. destruct H as [Hx Hl].
    destruct (IH Hl) as (Hl1 & Hl2 & Hdisj).
    split; [|split; [exact Hl2|]].
    + constructor; [|exact Hl1]. intros Hin. apply Hx, in_or_app. now left.
    + intros a [<-|Ha]; [|now apply Hdisj].
      intros Hin. apply Hx, in_or_app. now right.
Qed.

Lemma NoDup_names_filter (p : Bookmark -> bool) (rows : list Bookmark) :
  NoDup (names rows) -> NoDup (names (filter p rows)).
Proof.
  unfold names.
  induction rows as [|r rows IH]; cbn [filter flat_map]; [trivial|].
  intros Hnodup. apply NoDup_app_parts in Hnodup.
  destruct Hnodup as (Hr & Hrows & Hdisj).
  destruct (p r); cbn [flat_map]; [|now apply IH].
  apply NoDup_app; [exact Hr | now apply IH |].
  intros n Hn Hin. apply (Hdisj n Hn).
  exact (names_filter_incl p rows n Hin).
Qed.

Lemma insert_well_kept (rows rows' : list Bookmark) (r : Bookmark) :
  well_kept rows -> Pg.insert rows r = Ok rows' -> well_kept rows'.
Proof.
  intros (Hids & Hnames & Hfit) Hins.
  apply insert_ok in Hins.
  destruct Hins as (id' & thread_id' & checkpoint_id' & name' & Hid & Hthread
                    & Hcheckpoint & Hname & Hfresh & Hfree & ->).
  split; [|split].
  - rewrite map_app. cbn.
    apply NoDup_app; [exact Hids | repeat constructor; intros [] |].
    intros i Hin [<-|[]]. apply in_map_iff in Hin.
    destruct Hin as (row & Hrow & Hin).
    pose proof (proj1 (existsb_false_In _ _) Hfresh row Hin) as Hneq.
    unfold Pg.has_id in Hneq. rewrite Hrow, String.eqb_refl in Hneq.
    discriminate Hneq.
  - rewrite names_app. unfold names at 2. cbn.
    destruct name' as [n|]; cbn; [|now rewrite app_nil_r].
    apply NoDup_app; [exact Hnames | repeat constructor; intros [] |].
    intros m Hin [<-|[]].
    pose proof (Hfree n eq_refl) as Hm.
    rewrite (named_in_names _ _ Hin) in Hm. discriminate Hm.
  - apply Forall_app. split; [exact Hfit|].
    constructor; [|constructor].
    split; cbn; [exact (varchar_stored_fits _ _ _ Hid)|].
    split; [exact (varchar_stored_fits _ _ _ Hthread)|].
    split; [exact (varchar_stored_fits _ _ _ Hcheckpoint)|].
    destruct (name r) as [n|]; cbn in Hname.
    + destruct (Pg.varchar Pg.name_width n) as [n'|] eqn:Hn; [|discriminate].
      injection Hname as <-. exact (varchar_stored_fits _ _ _ Hn).
    + injection Hname as <-. exact I.
Qed.

Lemma perform_well_kept (st : store) (c : call) :
  well_kept (heap st) -> well_kept (heap (perform st c)).
Proof.
  intros Hkept. destruct c as [bookmark_id now t c n d|i|t|i]; cbn [perform].
  - unfold BookmarkManager.save. cbn [execute heap].
    destruct (Pg.insert (heap st) _) as [rows'|e] eqn:Hins.
    + cbn. exact (insert_well_kept _ _ _ Hkept Hins).
    + destruct e as [msg|msg|[k|w]]; exact Hkept.
  - exact Hkept.
  - exact Hkept.
  - rewrite delete_unfolded. cbn [snd with_heap heap].
    destruct Hkept as (Hids & Hnames & Hfit).
    split; [|split].
    + now apply ids_distinct_after_filter.
    + now apply NoDup_names_filter.
    + apply Forall_forall. intros r Hr. apply filter_In in Hr.
      exact (proj1 (Forall_forall _ _) Hfit r (proj1 Hr)).
Qed.

(** X4: after any sequence of calls on a freshly provisioned table, whatever
    their arguments and whether they returned or raised, no two bookmarks
    share an id, no two share a non-null name, and every stored id, thread
    id, checkpoint id and name fits its column. *)
Theorem history_well_kept (calls : list call) :
  well_kept (heap (history calls)).
Proof.
  unfold history.
  assert (Hgen : forall st, well_kept (heap st) ->
                            well_kept (heap (fold_left perform calls st))).
  { induction calls as [|c calls IH]; intros st Hkept; [exact Hkept|].
    cbn [fold_left]. apply IH. now apply perform_well_kept. }
  apply Hgen. repeat split; constructor.
Qed.

(** ** Saving, then looking up or deleting by id *)

Lemma saved_matches_its_id (bookmark_id : string) (now : Z)
      (thread_id checkpoint_id : string) (name description : option string) :
  Pg.name_or_id bookmark_id
    (saved bookmark_id now thread_id checkpoint_id name description) = true.
Proof.
  unfold Pg.name_or_id, Pg.has_id. cbn [saved id].
  rewrite String.eqb_refl. apply orb_true_r.
Qed.

(** X5: for valid arguments and an id that is not the name of a bookmark
    already stored, a save that returns followed by [get] of the generated id
    returns the saved bookmark, named or not. *)
Theorem save_then_get_by_id
        (st st' : store) (bookmark_id : string) (now : Z)
        (thread_id checkpoint_id : string) (name description : option string)
        (b : Bookmark) :
  uuid_text bookmark_id ->
  valid thread_id checkpoint_id name ->
  named bookmark_id st = false ->
  BookmarkManager.save bookmark_id now thread_id checkpoint_id name description st
  = (Ok b, st') ->
  fst (BookmarkManager.get bookmark_id st') = Ok (Some b).
Proof.
  intros Hid Hvalid Hnot Hsave.
  destruct (save_returned_valid _ _ _ _ _ _ _ _ _ Hid Hvalid Hsave)
    as (-> & Hheap & Hfresh & _).
  unfold BookmarkManager.get, Pg.select_one. cbn [fst execute heap].
  rewrite Hheap, find_app_later.
  - cbn [find]. now rewrite saved_matches_its_id.
  - change (matched bookmark_id st = false).
    now rewrite matched_named_or_identified, Hnot, Hfresh.
Qed.

Lemma save_then_get_by_id_witness :
  fst (BookmarkManager.get uuid_a store_a)
  = Ok (Some (saved uuid_a 10 "thread-1" "checkpoint-1" None None)).
Proof.
  apply (save_then_get_by_id empty store_a uuid_a 10 "thread-1" "checkpoint-1"
                             None None).
  - reflexivity.
  - unfold valid, fits. repeat split; apply Nat.leb_le; reflexivity.
  - reflexivity.
  - reflexivity.
Defined.

(** X6: under the same conditions, deleting by the generated id right after
    the save returns true and leaves the rows exactly as they were before the
    save. *)
Theorem save_then_delete_by_id
        (st st' : store) (bookmark_id : string) (now : Z)
        (thread_id checkpoint_id : string) (name description : option string)
        (b : Bookmark) :
  uuid_text bookmark_id ->
  valid thread_id checkpoint_id name ->
  named bookmark_id st = false ->
  BookmarkManager.save bookmark_id now thread_id checkpoint_id name description st
  = (Ok b, st') ->
  fst (BookmarkManager.delete bookmark_id st') = Ok true
  /\ heap (snd (BookmarkManager.delete bookmark_id st')) = heap st.
Proof.
  intros Hid Hvalid Hnot Hsave.
  destruct (save_returned_valid _ _ _ _ _ _ _ _ _ Hid Hvalid Hsave)
    as (-> & Hheap & Hfresh & _).
  assert (Hnone : matched bookmark_id st = false)
    by now rewrite matched_named_or_identified, Hnot, Hfresh.
  rewrite delete_unfolded. cbn [fst snd with_heap heap].
  unfold matched in *. rewrite Hheap. split.
  - rewrite existsb_app. cbn [existsb].
    now rewrite saved_matches_its_id, orb_true_r.
  - rewrite filter_app, (filter_out_none _ _ Hnone). cbn [filter].
    rewrite saved_matches_its_id. cbn. apply app_nil_r.
Qed.

Lemma save_then_delete_by_id_witness :
  fst (BookmarkManager.delete uuid_b store_ab) = Ok true
  /\ heap (snd (BookmarkManager.delete uuid_b store_ab)) = heap store_a.
Proof.
  apply (save_then_delete_by_id store_a store_ab uuid_b 20 "thread-2"
                                "checkpoint-2" (Some uuid_a)
                                (Some "a name that is an id")
                                (saved uuid_b 20 "thread-2" "checkpoint-2"
                                       (Some uuid_a)
                                       (Some "a name that is an id"))).
  - reflexivity.
  - unfold valid, fits. repeat split; apply Nat.leb_le; reflexivity.
  - reflexivity.
  - reflexivity.
Defined.

(** ** delete and get agree *)

Lemma is_some_find {A : Type} (p : A -> bool) (l : list A) :
  is_some (find p l) = existsb p l.
Proof.
  induction l as [|x l IH]; cbn; [reflexivity|].
  destruct (p x); [reflexivity | exact IH].
Qed.

(** X7: [delete] returns true exactly when [get] of the same identifier, on
    the same store, finds a bookmark. *)
Theorem delete_reports_what_get_finds (st : store) (identifier : string) :
  fst (BookmarkManager.delete identifier st)
  = rmap is_some (fst (BookmarkManager.get identifier st)).
Proof.
  rewrite delete_unfolded.
  unfold BookmarkManager.get, Pg.select_one, matched.
  cbn [fst execute heap rmap rbind]. now rewrite is_some_find.
Qed.

Lemma find_filter_kept {A : Type} (p q : A -> bool) (l : list A) (b : A) :
  find p l = Some b -> q b = true -> find p (filter q l) = Some b.
Proof.
  induction l as [|x l IH]; cbn; [discriminate|].
  destruct (p x) eqn:Hp.
  - intros [= ->] Hq. rewrite Hq. cbn. now rewrite Hp.
  - intros Hfind Hq. destruct (q x); cbn; [rewrite Hp|]; now apply IH.
Qed.

(** X8: a delete does not disturb the lookups that resolve to other
    bookmarks: when [get j] finds a bookmark that [i] matches neither by name
    nor by id, [get j] finds the same bookmark after [delete i]. *)
Theorem delete_keeps_other_lookups
        (st : store) (i j : string) (b : Bookmark) :
  fst (BookmarkManager.get j st) = Ok (Some b) ->
  Pg.name_or_id i b = false ->
  fst (BookmarkManager.get j (snd (BookmarkManager.delete i st)))
  = Ok (Some b).
Proof.
  rewrite delete_unfolded.
  unfold BookmarkManager.get, Pg.select_one.
  cbn [fst snd execute with_heap heap].
  intros [= Hfind] Hother.
  rewrite (find_filter_kept _ (fun r => negb (Pg.name_or_id i r)) _ b Hfind);
    [reflexivity|].
  now rewrite Hother.
Qed.

Lemma delete_keeps_other_lookups_witness :
  fst (BookmarkManager.get uuid_a
         (snd (BookmarkManager.delete uuid_b store_ab)))
  = Ok (Some (saved uuid_a 10 "thread-1" "checkpoint-1" None None)).
Proof.
  apply (delete_keeps_other_lookups store_ab uuid_b uuid_a); reflexivity.
Defined.

(** ** What a save does to the table *)

(** X9: whatever its arguments, a save that raises leaves every row as it
    was, and a save that returns leaves the rows it found in place and adds
    one row after them. *)
Theorem save_appends_or_leaves
        (st : store) (bookmark_id : string) (now : Z)
        (thread_id checkpoint_id : string) (name description : option string) :
  let outcome :=
    BookmarkManager.save bookmark_id now thread_id checkpoint_id name
                         description st in
  (succeeded (fst outcome) = false /\ heap (snd outcome) = heap st)
  \/ (succeeded (fst outcome) = true
      /\ exists row, heap (snd outcome) = (heap st ++ [row])%list).
Proof.
  cbn zeta. unfold BookmarkManager.save. cbn [execute heap].
  destruct (Pg.insert (heap st) _) as [rows'|e] eqn:Hins.
  - right. split; [reflexivity|].
    apply insert_ok in Hins.
    destruct Hins as (i & t & c & n & _ & _ & _ & _ & _ & _ & ->).
    eexists. reflexivity.
  - left. destruct e as [msg|msg|[k|w]]; split; reflexivity.
Qed.





(** ** Listing *)



(** X13: after a save of valid arguments has returned, the saved bookmark is
    in the list of its thread and in the list of all bookmarks, and the list
    of all bookmarks is one longer than the table was. *)
Theorem saved_bookmark_is_listed
        (st st' : store) (bookmark_id : string) (now : Z)
        (thread_id checkpoint_id : string) (name description : option string)
        (b : Bookmark) :
  uuid_text bookmark_id ->
  valid thread_id checkpoint_id name ->
  BookmarkManager.save bookmark_id now thread_id checkpoint_id name description st
  = (Ok b, st') ->
  (exists rows,
      fst (BookmarkManager.list (Some thread_id) st') = Ok rows /\ In b rows)
  /\ (exists rows,
         fst (BookmarkManager.list None st') = Ok rows
         /\ In b rows
         /\ List.length rows = S (List.length (heap st))).
Proof.
  intros Hid Hvalid Hsave.
  destruct (save_returned_valid _ _ _ _ _ _ _ _ _ Hid Hvalid Hsave)
    as (-> & Hheap & _ & _).
  assert (Hin : In (saved bookmark_id now thread_id checkpoint_id name
                          description) (heap st'))
    by (rewrite Hheap; apply in_or_app; right; now left).
  unfold BookmarkManager.list. cbn [fst execute heap]. split.
  - destruct (truthy (Some thread_id)); eexists; (split; [reflexivity|]).
    + apply (Permutation_in _ (order_permutation _)).
      apply filter_In. split; [exact Hin|].
      unfold Pg.in_thread. cbn. apply String.eqb_refl.
    + exact (Permutation_in _ (order_permutation _) Hin).
  - eexists. split; [reflexivity|]. split.
    + exact (Permutation_in _ (order_permutation _) Hin).
    + rewrite <- (Permutation_length (order_permutation _)), Hheap.
      rewrite length_app. cbn. lia.
Qed.

Lemma saved_bookmark_is_listed_witness :
  (exists rows,
      fst (BookmarkManager.list (Some "thread-1") store_a) = Ok rows
      /\ In (saved uuid_a 10 "thread-1" "checkpoint-1" None None) rows)
  /\ (exists rows,
         fst (BookmarkManager.list None store_a) = Ok rows
         /\ In (saved uuid_a 10 "thread-1" "checkpoint-1" None None) rows
         /\ List.length rows = 1%nat).
Proof.
  apply (saved_bookmark_is_listed empty store_a uuid_a 10 "thread-1"
                                  "checkpoint-1" None None).
  - reflexivity.
  - unfold valid, fits. repeat split; apply Nat.leb_le; reflexivity.
  - reflexivity.
Defined.

(** ** The options of a question *)








(** ** The reply to a question *)

(** X15: when the reply is a dict whose [answers] is a non-empty dict,
    [ask_human] returns one of those answers and raises nothing: the one
    under the id of the question when there is one, and the first answer
    otherwise. *)
Theorem ask_human_picks_an_answer
        (q_id : string) (reply : dict) (answers : dict) :
  lookup reply "answers" = Some (PDict answers) ->
  answers <> [] ->
  exists answer,
    questions.ask_human_result q_id (PDict reply) = questions.Returned answer
    /\ In answer (map snd answers)
    /\ (forall keyed, lookup answers q_id = Some keyed -> answer = keyed)
    /\ (lookup answers q_id = None -> Some answer = option_map snd (hd_error answers)).
Proof.
  intros Hanswers Hnonempty.
  unfold questions.ask_human_result, get. rewrite Hanswers.
  destruct (lookup answers q_id) as [keyed|] eqn:Hkeyed.
  - exists keyed. split; [reflexivity|]. split.
    + clear Hnonempty Hanswers.
      induction answers as [|[k v] answers IH]; [discriminate|].
      cbn in Hkeyed. destruct (String.eqb k q_id).
      * injection Hkeyed as <-. now left.
      * right. now apply IH.
    + split; [now intros ? [= <-] | discriminate].
  - destruct answers as [|[k first] answers]; [now elim Hnonempty|].
    exists first. split; [reflexivity|]. split; [now left|].
    split; [discriminate | reflexivity].
Qed.

Lemma ask_human_picks_an_answer_witness :
  questions.ask_human_result
    "q-2"
    (PDict [("type", PStr "questions_answered");
            ("answers", PDict [("q-1", PStr "no"); ("q-2", PStr "yes")])])
  = questions.Returned (PStr "yes").
Proof.
  destruct (ask_human_picks_an_answer
              "q-2"
              [("type", PStr "questions_answered");
               ("answers", PDict [("q-1", PStr "no"); ("q-2", PStr "yes")])]
              [("q-1", PStr "no"); ("q-2", PStr "yes")]
              eq_refl)
    as (answer & Hresult & _ & Hkeyed & _).
  - discriminate.
  - rewrite Hresult. now rewrite (Hkeyed (PStr "yes") eq_refl).
Defined.

(** X16: when the reply is a dict without [answers], or with an empty
    [answers] dict, [ask_human] returns the textual form of the whole reply. *)
Theorem ask_human_without_answers (q_id : string) (reply : dict) :
  lookup reply "answers" = None \/ lookup reply "answers" = Some (PDict []) ->
  questions.ask_human_result q_id (PDict reply)
  = questions.Returned (PStr (str (PDict reply))).
Proof.
  unfold questions.ask_human_result, get.
  intros [-> | ->]; reflexivity.
Qed.

Lemma ask_human_without_answers_witness :
  questions.ask_human_result
    "q-1" (PDict [("type", PStr "questions_answered"); ("answers", PDict [])])
  = questions.Returned (PStr "{'type': 'questions_answered', 'answers': {}}").
Proof.
  apply (ask_human_without_answers
           "q-1"
           [("type", PStr "questions_answered"); ("answers", PDict [])]).
  now right.
Defined.

(** X17: when the reply is a dict whose [answers] is [None], a boolean or an
    integer, [ask_human] raises [TypeError]; when it is a non-empty list or
    string in which the id of the question does not occur, it raises
    [AttributeError]. *)
Theorem ask_human_answers_not_a_dict
        (q_id : string) (reply : dict) (answers : value) :
  lookup reply "answers" = Some answers ->
  match answers with
  | PNone | PBool _ | PInt _ =>
      questions.ask_human_result q_id (PDict reply)
      = questions.Raised questions.type_error
  | PStr s =>
      questions.is_substring q_id s = false -> s <> "" ->
      questions.ask_human_result q_id (PDict reply)
      = questions.Raised questions.attribute_error
  | PList l =>
      existsb (fun x => eq_str x q_id) l = false -> l <> [] ->
      questions.ask_human_result q_id (PDict reply)
      = questions.Raised questions.attribute_error
  | PDict _ => True
  end.
Proof.
  intros Hanswers. unfold questions.ask_human_result, get. rewrite Hanswers.
  destruct answers as [| | |s|l|a]; try reflexivity; try exact I.
  - intros -> Hs. apply String.eqb_neq in Hs. now rewrite Hs.
  - intros -> Hl. destruct l; [now elim Hl | reflexivity].
Qed.

Lemma ask_human_answers_not_a_dict_witness :
  questions.ask_human_result "q-1" (PDict [("answers", PNone)])
  = questions.Raised questions.type_error
  /\ questions.ask_human_result "q-1" (PDict [("answers", PList [PStr "yes"])])
     = questions.Raised questions.attribute_error.
Proof.
  split.
  - exact (ask_human_answers_not_a_dict "q-1" [("answers", PNone)] PNone
                                        eq_refl).
  - apply (ask_human_answers_not_a_dict
             "q-1" [("answers", PList [PStr "yes"])] (PList [PStr "yes"])
             eq_refl); [reflexivity | discriminate].
Defined.

(** ** Adding the tool to the agent state *)

Lemma tool_names_app {tool : Type} (name_of : tool -> option string)
      (l l' : list tool) :
  questions.tool_names name_of (l ++ l')
  = (questions.tool_names name_of l ++ questions.tool_names name_of l')%list.
Proof. apply flat_map_app. Qed.

(** X18: [modify_state] keeps the tools it finds, in their order, and adds
    the [ask_human] tool after them when no tool of the state has that name,
    and nothing otherwise; the other entries of the state are untouched; the
    resulting state has a tool named [ask_human], and a second
    [modify_state] changes nothing. *)
Theorem modify_state_adds_ask_human_once
        {tool : Type} (name_of : tool -> option string)
        (created created' : tool) (state : questions.AgentState tool) :
  name_of created = Some "ask_human" ->
  let existing := match questions.tools state with
                  | Some l => l
                  | None => []
                  end in
  let state' := questions.modify_state name_of created state in
  (questions.tools state' = Some (existing ++ [created])%list
   /\ ~ In "ask_human" (questions.tool_names name_of existing)
   \/ state' = state
      /\ In "ask_human" (questions.tool_names name_of existing))
  /\ questions.rest state' = questions.rest state
  /\ (exists l, questions.tools state' = Some l
                /\ In "ask_human" (questions.tool_names name_of l))
  /\ questions.modify_state name_of created' state' = state'.
Proof.
  intros Hname. cbn zeta.
  set (existing := match questions.tools state with
                   | Some l => l
                   | None => []
                   end).
  assert (Hmem : forall l,
             existsb (String.eqb "ask_human") l = true <-> In "ask_human" l).
  { intros l. rewrite existsb_exists. split.
    - intros (x & Hx & Heq). apply String.eqb_eq in Heq. now subst.
    - intros Hin. exists "ask_human". split; [exact Hin | reflexivity]. }
  unfold questions.modify_state. fold existing.
  destruct (existsb (String.eqb "ask_human")
                    (questions.tool_names name_of existing)) eqn:Hhas;
    cbn [negb].
  - apply Hmem in Hhas.
    assert (Htools : questions.tools state = Some existing).
    { subst existing. destruct (questions.tools state) as [l|];
        [reflexivity | destruct Hhas]. }
    split; [right; now split|]. split; [reflexivity|].
    split; [exists existing; now split|].
    rewrite Htools. apply Hmem in Hhas. now rewrite Hhas.
  - assert (Hnot : ~ In "ask_human" (questions.tool_names name_of existing)).
    { intros Hin. apply Hmem in Hin. rewrite Hin in Hhas. discriminate. }
    assert (Hnow : In "ask_human"
                      (questions.tool_names name_of (existing ++ [created]))).
    { rewrite tool_names_app. apply in_or_app. right.
      unfold questions.tool_names. cbn. rewrite Hname. now left. }
    split; [left; now split|]. split; [reflexivity|].
    split; [eexists; split; [reflexivity | exact Hnow]|].
    cbn [questions.tools]. apply Hmem in Hnow. now rewrite Hnow.
Qed.

Lemma modify_state_adds_ask_human_once_witness :
  questions.modify_state
    (fun t : string => Some t) "ask_human"
    {| questions.tools := Some ["read_file"; "shell"]; questions.rest := [] |}
  = {| questions.tools := Some ["read_file"; "shell"; "ask_human"];
       questions.rest := [] |}
  /\ questions.modify_state
       (fun t : string => Some t) "ask_human"
       {| questions.tools := Some ["read_file"; "shell"; "ask_human"];
          questions.rest := [] |}
     = {| questions.tools := Some ["read_file"; "shell"; "ask_human"];
          questions.rest := [] |}.
Proof.
  split; [reflexivity|].
  exact (proj2 (proj2 (proj2
           (modify_state_adds_ask_human_once
              (fun t : string => Some t) "ask_human" "ask_human"
              {| questions.tools := Some ["read_file"; "shell"];
                 questions.rest := [] |}
              eq_refl)))).
Defined.

(** ** One more message *)

Lemma scan_holding (max_length : Z) (msgs : list dict)
      (held_human held_ai human ai : option string) :
  Forall (fun msg => documented msg = true) msgs ->
  scan msgs max_length None None = Ok (human, ai) ->
  scan msgs max_length held_human held_ai
  = Ok (match held_human with Some _ => held_human | None => human end,
        match held_ai with Some _ => held_ai | None => ai end).
Proof.
  intros Hdoc Hscan.
  destruct (scan_slots max_length msgs Hdoc None None)
    as (h0 & a0 & Hh0 & Ha0 & Hscan0).
  rewrite Hscan in Hscan0. injection Hscan0 as <- <-.
  destruct (scan_slots max_length msgs Hdoc held_human held_ai)
    as (h1 & a1 & Hh1 & Ha1 & Hscan1).
  rewrite Hscan1. f_equal. f_equal.
  - destruct held_human; cbn in Hh1; [now injection Hh1|].
    cbn in Hh0. rewrite Hh0 in Hh1. now injection Hh1.
  - destruct held_ai; cbn in Ha1; [now injection Ha1|].
    cbn in Ha0. rewrite Ha0 in Ha1. now injection Ha1.
Qed.

(** X19: on documented messages, one more message at the recent end changes
    the digest in its own slot only: a [human] message replaces the first
    component by its text and keeps the second, an [ai] message does the
    converse, and a message of another role changes nothing. *)
Theorem extract_last_messages_after_one_more
        (messages : list dict) (msg : dict) (max_length : Z)
        (human ai : option string) (text : string) :
  Forall (fun m => documented m = true) messages ->
  message_text msg max_length = Ok text ->
  extract_last_messages messages max_length = Ok (human, ai) ->
  extract_last_messages (messages ++ [msg]) max_length
  = Ok (if has_role "human" msg then Some text else human,
        if has_role "ai" msg then Some text else ai).
Proof.
  intros Hdoc Htext Hextract. unfold extract_last_messages in *.
  rewrite rev_app_distr. cbn [rev app scan]. rewrite Htext. cbn [rbind].
  unfold capture. fold (has_role "human" msg). fold (has_role "ai" msg).
  apply Forall_rev in Hdoc.
  destruct (has_role "human" msg) eqn:Hhuman.
  - rewrite (has_role_exclusive msg Hhuman). cbn.
    now rewrite (scan_holding _ _ (Some text) None human ai Hdoc Hextract).
  - destruct (has_role "ai" msg); cbn.
    + now rewrite (scan_holding _ _ None (Some text) human ai Hdoc Hextract).
    + exact Hextract.
Qed.

Lemma extract_last_messages_after_one_more_witness :
  extract_last_messages
    [[("type", PStr "human"); ("content", PStr "hi")];
     [("type", PStr "ai"); ("content", PStr "hello there")];
     [("type", PStr "human"); ("content", PStr "thanks")]]
    100
  = Ok (Some "thanks", Some "hello there").
Proof.
  apply (extract_last_messages_after_one_more
           [[("type", PStr "human"); ("content", PStr "hi")];
            [("type", PStr "ai"); ("content", PStr "hello there")]]
           [("type", PStr "human"); ("content", PStr "thanks")]
           100 (Some "hi") (Some "hello there") "thanks").
  - repeat constructor.
  - reflexivity.
  - reflexivity.
Defined.
